(** * Gradient problems and their evaluator adapter

    A shallow embedding of

    - [ceres/first_order_function.h]  (class [FirstOrderFunction] and the two
      context structs),
    - [ceres/gradient_problem.h]      (class [GradientProblem], declarations),
    - [internal/ceres/gradient_problem_evaluator.h]
                                      (class [GradientProblemEvaluator]).

    Conventions.

    - A [double] is an exact rational ([Qc]): rounding, infinities and NaN
      are idealised away.
    - A pointer is an address ([N]); [NULL] is address 0.  Memory is a finite
      map from addresses to doubles; an array of [n] doubles at [p] occupies
      the cells [p], [p+1], ..., [p+n-1].
    - An [int] is a [Z].
    - A member function with out-parameters is a function from the memory
      before the call to its return value and the memory after it. *)

From Stdlib Require Import QArith Qcanon Qcabs.
From stdpp Require Import base numbers strings gmap list.

Local Open Scope Qc_scope.

(** ** Memory *)

Definition NULL : N := 0%N.

Definition load (h : gmap N Qc) (p : N) : Qc := default 0 (h !! p).

Definition store (h : gmap N Qc) (p : N) (v : Qc) : gmap N Qc := <[p := v]> h.

Fixpoint load_vec (h : gmap N Qc) (p : N) (n : nat) : list Qc :=
  match n with
  | O => []
  | S k => load h p :: load_vec h (N.succ p) k
  end.

Fixpoint store_vec (h : gmap N Qc) (p : N) (v : list Qc) : gmap N Qc :=
  match v with
  | [] => h
  | x :: v' => store_vec (store h p x) (N.succ p) v'
  end.

(** The cell [a] lies in the array of [n] doubles at [p], a null [p] having
    no cells. *)
Definition in_block (p : N) (n : nat) (a : N) : Prop :=
  p ≠ NULL ∧ (p ≤ a < p + N.of_nat n)%N.

(** ** first_order_function.h *)

Module NextDirectionUpdateContext.
Record t := {
  valid : bool;
  delta_x_history_col_next : N;
  delta_gradient_history_col_next : N;
  delta_x_dot_delta_gradient_next : N;
  approximate_eigenvalue_scale_ : N
}.
(** The default member initialisers of the struct. *)
Definition init : t :=
  {| valid := false;
     delta_x_history_col_next := NULL;
     delta_gradient_history_col_next := NULL;
     delta_x_dot_delta_gradient_next := NULL;
     approximate_eigenvalue_scale_ := NULL |}.
End NextDirectionUpdateContext.

Module RightMultiplyContext.
Record t := {
  valid : bool;
  delta_x_history_col_it : N;
  delta_x_dot_delta_gradient_it : Qc;
  delta_gradient_history_col_it : N
}.
Definition init : t :=
  {| valid := false;
     delta_x_history_col_it := NULL;
     delta_x_dot_delta_gradient_it := 0;
     delta_gradient_history_col_it := NULL |}.
End RightMultiplyContext.

(** The two callbacks of [NextDirection].

    [getNextDirectionUpdateContext] is a function of one double.
    [getRightMultiplyContext] takes no argument and is called repeatedly; it
    is represented by the list of its successive answers, and answers with
    the default-constructed context (not valid) once that list is used up. *)

Module FirstOrderFunction.
(** The virtual member functions of the class. *)
Record t := {
  Evaluate : N → N → N → gmap N Qc → bool * gmap N Qc;
  NumParameters : Z;
  EvaluateGradientNorms : N → N → N → N → gmap N Qc → bool * gmap N Qc;
  NextDirection :
    N → Qc → N → N → (Qc → NextDirectionUpdateContext.t) → N → N →
    list RightMultiplyContext.t → bool → N → gmap N Qc → bool * gmap N Qc
}.

(** The bodies given in the base class. *)
Definition base_EvaluateGradientNorms
    (x gradient gradient_squared_norm gradient_max_norm : N)
    (h : gmap N Qc) : bool * gmap N Qc :=
  (false, h).

Definition base_NextDirection
    (previous_search_direction : N) (previous_step_size : Qc)
    (current_gradient previous_gradient : N)
    (getNextDirectionUpdateContext : Qc → NextDirectionUpdateContext.t)
    (approximate_eigenvalue_scale_ search_direction : N)
    (getRightMultiplyContext : list RightMultiplyContext.t)
    (use_approximate_eigenvalue_scaling_ : bool)
    (search_direction_dot_current_gradient : N)
    (h : gmap N Qc) : bool * gmap N Qc :=
  (false, h).

(** A derived class that implements the two pure virtual functions and
    overrides nothing else. *)
Definition derive
    (Evaluate_impl : N → N → N → gmap N Qc → bool * gmap N Qc)
    (NumParameters_impl : Z) : t :=
  {| Evaluate := Evaluate_impl;
     NumParameters := NumParameters_impl;
     EvaluateGradientNorms := base_EvaluateGradientNorms;
     NextDirection := base_NextDirection |}.
End FirstOrderFunction.

(** ** The quasi-Newton direction update *)

Module QuasiNewtonDirectionUpdater.

Definition dot (a b : list Qc) : Qc := foldr Qcplus 0 (zip_with Qcmult a b).

(** [y + a * x], entry by entry. *)
Definition axpy (a : Qc) (x y : list Qc) : list Qc :=
  zip_with (λ xi yi, yi + a * xi) x y.

(** One stored history pair with its precomputed dot product. *)
Record pair := {
  s : list Qc;
  y : list Qc;
  s_dot_y : Qc
}.

Section Updater.

(** The curvature threshold, a small positive number the spec leaves open. *)
Variable epsilon : Qc.

(** The length of the vectors. *)
Variable num_parameters : nat.

(** The curvature estimate that goes into the eigenvalue-scale slot when a
    pair is recorded, as a function of the pair; the spec leaves its formula
    open. *)
Variable eigenvalue_scale : list Qc → list Qc → Qc.

(** Whether a direction, with its directional derivative, is a usable one;
    the spec has the update fail when it is not and names no criterion. *)
Variable usable : list Qc → Qc → bool.

(** The answers of the history callback, newest first, up to its first
    answer that is not valid. *)
Fixpoint yielded (getRightMultiplyContext : list RightMultiplyContext.t)
    : list RightMultiplyContext.t :=
  match getRightMultiplyContext with
  | [] => []
  | c :: later =>
      if RightMultiplyContext.valid c then c :: yielded later else []
  end.

(** The pair an answer points to. *)
Definition read_pair (h : gmap N Qc) (c : RightMultiplyContext.t) : pair :=
  {| s := load_vec h (RightMultiplyContext.delta_x_history_col_it c)
            num_parameters;
     y := load_vec h (RightMultiplyContext.delta_gradient_history_col_it c)
            num_parameters;
     s_dot_y := RightMultiplyContext.delta_x_dot_delta_gradient_it c |}.

Definition history (h : gmap N Qc)
    (getRightMultiplyContext : list RightMultiplyContext.t) : list pair :=
  read_pair h <$> yielded getRightMultiplyContext.

(** Recording this iteration's pair.  The update context says where the
    newest slot is; when it is valid, the step taken
    ([previous_step_size] times the previous direction), the change of the
    gradient, their dot product and the eigenvalue scale are written there,
    the scale also to the output slot of the call.  When it is not valid
    nothing is recorded. *)
Definition record_step
    (previous_search_direction : N) (previous_step_size : Qc)
    (current_gradient previous_gradient : N)
    (getNextDirectionUpdateContext : Qc → NextDirectionUpdateContext.t)
    (approximate_eigenvalue_scale_ : N)
    (h : gmap N Qc) : gmap N Qc :=
  let context := getNextDirectionUpdateContext previous_step_size in
  if NextDirectionUpdateContext.valid context then
    let delta_x :=
      Qcmult previous_step_size
        <$> load_vec h previous_search_direction num_parameters in
    let delta_gradient :=
      zip_with Qcminus (load_vec h current_gradient num_parameters)
        (load_vec h previous_gradient num_parameters) in
    let scale := eigenvalue_scale delta_x delta_gradient in
    let h1 :=
      store_vec h
        (NextDirectionUpdateContext.delta_x_history_col_next context)
        delta_x in
    let h2 :=
      store_vec h1
        (NextDirectionUpdateContext.delta_gradient_history_col_next context)
        delta_gradient in
    let h3 :=
      store h2
        (NextDirectionUpdateContext.delta_x_dot_delta_gradient_next context)
        (dot delta_x delta_gradient) in
    let h4 :=
      store h3
        (NextDirectionUpdateContext.approximate_eigenvalue_scale_ context)
        scale in
    store h4 approximate_eigenvalue_scale_ scale
  else h.

(** Step 1, newest to oldest: a pair with [s·y ≤ ε] is skipped; for the
    others [α = ρ·(s·q)] is kept and [q ← q − α·y]. *)
Fixpoint first_pass (pairs : list pair) (q : list Qc)
    : list (pair * Qc) * list Qc :=
  match pairs with
  | [] => ([], q)
  | p :: older =>
      if decide (s_dot_y p ≤ epsilon) then first_pass older q
      else
        let ρ := / s_dot_y p in
        let α := ρ * dot (s p) q in
        let '(used, q') := first_pass older (axpy (- α) (y p) q) in
        ((p, α) :: used, q')
  end.

(** Step 3, oldest to newest over the pairs step 1 used:
    [β = ρ·(y·r)], [r ← r + s·(α − β)]. *)
Fixpoint second_pass (used : list (pair * Qc)) (r : list Qc) : list Qc :=
  match used with
  | [] => r
  | (p, α) :: newer =>
      let ρ := / s_dot_y p in
      let β := ρ * dot (y p) r in
      second_pass newer (axpy (α - β) (s p) r)
  end.

(** Steps 1 to 4 on values.  The initial approximation of step 2 is the
    identity, or the eigenvalue scale when scaling is requested; with no
    pair in use there is nothing to approximate and the direction is the
    steepest descent of the spec's edge cases. *)
Definition two_loop (use_approximate_eigenvalue_scaling_ : bool)
    (approximate_eigenvalue_scale : Qc) (pairs : list pair)
    (current_gradient : list Qc) : list Qc :=
  let '(used, q) := first_pass pairs current_gradient in
  let r0 :=
    match used with
    | [] => q
    | _ :: _ =>
        if use_approximate_eigenvalue_scaling_
        then Qcmult approximate_eigenvalue_scale <$> q
        else q
    end in
  Qcopp <$> second_pass (reverse used) r0.

(** Modelled from the spec: the direction-update capability of an objective
    that implements it, which the files at hand only declare.  The inputs
    are read, this iteration's pair is recorded through
    [getNextDirectionUpdateContext], and the four steps of the spec's
    algorithm run over the history [getRightMultiplyContext] yields: first
    pass, scaling, second pass, and the direction [−r] with its dot product
    with the current gradient, both written to their output slots.  The
    call reports whether the direction is usable. *)
Definition NextDirection
    (previous_search_direction : N) (previous_step_size : Qc)
    (current_gradient previous_gradient : N)
    (getNextDirectionUpdateContext : Qc → NextDirectionUpdateContext.t)
    (approximate_eigenvalue_scale_ search_direction : N)
    (getRightMultiplyContext : list RightMultiplyContext.t)
    (use_approximate_eigenvalue_scaling_ : bool)
    (search_direction_dot_current_gradient : N)
    (h : gmap N Qc) : bool * gmap N Qc :=
  let g := load_vec h current_gradient num_parameters in
  let recorded :=
    record_step previous_search_direction previous_step_size
      current_gradient previous_gradient getNextDirectionUpdateContext
      approximate_eigenvalue_scale_ h in
  let d := two_loop use_approximate_eigenvalue_scaling_
             (load recorded approximate_eigenvalue_scale_)
             (history recorded getRightMultiplyContext) g in
  let derivative := dot d g in
  (usable d derivative,
   store (store_vec recorded search_direction d)
     search_direction_dot_current_gradient derivative).

End Updater.

(** An objective that overrides [NextDirection] with the update above. *)
Definition derive (epsilon : Qc)
    (eigenvalue_scale : list Qc → list Qc → Qc)
    (usable : list Qc → Qc → bool)
    (Evaluate_impl : N → N → N → gmap N Qc → bool * gmap N Qc)
    (NumParameters_impl : Z) : FirstOrderFunction.t :=
  {| FirstOrderFunction.Evaluate := Evaluate_impl;
     FirstOrderFunction.NumParameters := NumParameters_impl;
     FirstOrderFunction.EvaluateGradientNorms :=
       FirstOrderFunction.base_EvaluateGradientNorms;
     FirstOrderFunction.NextDirection :=
       NextDirection epsilon (Z.to_nat NumParameters_impl)
         eigenvalue_scale usable |}.

End QuasiNewtonDirectionUpdater.

(** ** local_parameterization.h *)

Module LocalParameterization.
(** Modelled from the spec: the retraction, whose header is not part of the
    sources at hand.  It maps an ambient point and a tangent update to an
    ambient point; the tangent dimension is [LocalSize], the ambient one
    is the objective's [NumParameters]. *)
Record t := {
  Plus : N → N → N → gmap N Qc → bool * gmap N Qc;
  LocalSize : Z
}.

(** The spec's requirement on a retraction over an ambient space of [n]
    entries: [Plus(x, 0) = x]. *)
Definition lawful (n : nat) (r : t) : Prop :=
  ∀ (h : gmap N Qc) (x delta x_plus_delta : N),
    load_vec h delta (Z.to_nat (LocalSize r))
      = replicate (Z.to_nat (LocalSize r)) 0 →
    load_vec (Plus r x delta x_plus_delta h).2 x_plus_delta n
      = load_vec h x n.
End LocalParameterization.

(** ** gradient_problem.h

    The header declares the member functions of [GradientProblem]; their
    bodies are not part of the files at hand.  The adapter below is
    verified against any behaviour of theirs: a problem is the record of
    what its member functions do. *)

Module GradientProblem.
Record t := {
  NumParameters : Z;
  NumLocalParameters : Z;
  Evaluate : N → N → N → gmap N Qc → bool * gmap N Qc;
  Plus : N → N → N → gmap N Qc → bool * gmap N Qc;
  EvaluateGradientNorms : N → N → N → N → gmap N Qc → bool * gmap N Qc;
  NextDirection :
    N → Qc → N → N → (Qc → NextDirectionUpdateContext.t) → N → N →
    list RightMultiplyContext.t → bool → N → gmap N Qc → bool * gmap N Qc
}.

(** Ordinary vector addition over the [n] entries of the ambient space. *)
Definition add_Plus (n : nat) (x delta x_plus_delta : N) (h : gmap N Qc)
    : bool * gmap N Qc :=
  (true,
   store_vec h x_plus_delta
     (zip_with Qcplus (load_vec h x n) (load_vec h delta n))).

(** Modelled from the spec: the constructors and the member function bodies
    of [GradientProblem], of which the files at hand hold the declarations
    only.  The problem owns an objective and zero or one retraction; sizes,
    [Evaluate], [EvaluateGradientNorms] and [NextDirection] are forwarded to
    the objective, [Plus] to the retraction, or to ordinary vector addition
    over the whole ambient space when there is none. *)
Definition make (function_ : FirstOrderFunction.t)
    (parameterization_ : option LocalParameterization.t) : t :=
  {| NumParameters := FirstOrderFunction.NumParameters function_;
     NumLocalParameters :=
       match parameterization_ with
       | Some r => LocalParameterization.LocalSize r
       | None => FirstOrderFunction.NumParameters function_
       end;
     Evaluate := FirstOrderFunction.Evaluate function_;
     Plus :=
       match parameterization_ with
       | Some r => LocalParameterization.Plus r
       | None => add_Plus (Z.to_nat (FirstOrderFunction.NumParameters function_))
       end;
     EvaluateGradientNorms := FirstOrderFunction.EvaluateGradientNorms function_;
     NextDirection := FirstOrderFunction.NextDirection function_ |}.
End GradientProblem.

(** ** execution_summary.h *)

Module CallStatistics.
Record t := { time : Qc; calls : Z }.
Definition init : t := {| time := 0; calls := 0 |}.
End CallStatistics.

(** Modelled from the spec: [ExecutionSummary::IncrementTimeAndCalls], which
    the files at hand only use.  The summary maps a label to its call count
    and total time; an entry is created on first use with both at zero, then
    the elapsed time is added and the call count goes up by one. *)
Definition IncrementTimeAndCalls (name : string) (elapsed : Qc)
    (statistics_ : gmap string CallStatistics.t) : gmap string CallStatistics.t :=
  let call_stats := default CallStatistics.init (statistics_ !! name) in
  <[name := {| CallStatistics.time := CallStatistics.time call_stats + elapsed;
               CallStatistics.calls := (CallStatistics.calls call_stats + 1)%Z |}]>
    statistics_.

(** ** gradient_problem_evaluator.h *)

Module Vector.
Record t := { data : N; size : Z }.
End Vector.

(** [LineSearchMinimizer::State], as far as the adapter looks into it: the
    gradient vector and the addresses of the two norm members. *)
Module LineSearchMinimizerState.
Record t := {
  gradient : Vector.t;
  gradient_squared_norm : N;
  gradient_max_norm : N
}.
End LineSearchMinimizerState.

Module GradientProblemEvaluator.

(** The data members. *)
Record t := {
  problem_ : GradientProblem.t;
  execution_summary_ : gmap string CallStatistics.t
}.

(** The constructor: [problem_(problem)], and a default-constructed
    summary. *)
Definition new (problem : GradientProblem.t) : t :=
  {| problem_ := problem; execution_summary_ := ∅ |}.

(** The state a member function runs in: the evaluator object, the memory
    its pointer arguments refer to, and the number of times the wall clock
    has been read. *)
Record State := {
  this : t;
  mem : gmap N Qc;
  clock_reads : nat
}.

(** A call either aborts the process or returns a value in a new state. *)
Inductive outcome (A : Type) : Type :=
| Fatal
| Returns (a : A) (σ : State).
Arguments Fatal {A}.
Arguments Returns {A} a σ.

Definition M (A : Type) : Type := State → outcome A.

Definition ret {A} (a : A) : M A := λ σ, Returns a σ.

Definition bind {A B} (m : M A) (k : A → M B) : M B :=
  λ σ, match m σ with
       | Fatal => Fatal
       | Returns a σ' => k a σ'
       end.

#[global] Instance M_ret : MRet M := @ret.
#[global] Instance M_bind : MBind M := λ A B k m, bind m k.

(** glog's [CHECK]: abort unless the condition holds. *)
Definition CHECK (condition : bool) : M unit :=
  λ σ, if condition then Returns () σ else Fatal.

(** Run a member function of another object on the memory. *)
Definition on_mem {A} (f : gmap N Qc → A * gmap N Qc) : M A :=
  λ σ, let '(a, h) := f (mem σ) in
       Returns a {| this := this σ; mem := h; clock_reads := clock_reads σ |}.

(** Run a member function of a base class on the whole state. *)
Definition on_state {A} (f : State → A * State) : M A :=
  λ σ, let '(a, σ') := f σ in Returns a σ'.

Definition get_this : M t := λ σ, Returns (this σ) σ.

Definition set_execution_summary_ (s : gmap string CallStatistics.t) : M unit :=
  λ σ, Returns ()
         {| this := {| problem_ := problem_ (this σ); execution_summary_ := s |};
            mem := mem σ; clock_reads := clock_reads σ |}.

Section Methods.

(** The wall clock: [clock k] is what the [k]-th reading returns. *)
Variable clock : nat → Qc.

(** [Evaluator::EvaluateOptions] is declared outside the files at hand and
    is not looked into. *)
Variable EvaluateOptions : Type.

(** The base class's [Evaluator::EvaluateGradientNorms], declared outside
    the files at hand: any function of the state. *)
Variable Evaluator_EvaluateGradientNorms :
  Vector.t → LineSearchMinimizerState.t → N → State → bool * State.

Definition WallTimeInSeconds : M Qc :=
  λ σ, Returns (clock (clock_reads σ))
         {| this := this σ; mem := mem σ; clock_reads := S (clock_reads σ) |}.

(** Modelled from the spec: [ScopedExecutionTimer], which the files at hand
    only use.  Construction reads the clock; destruction reads it again and
    books the difference, and one call, under the timer's label. *)
Record ScopedExecutionTimer := {
  start_time_ : Qc;
  name_ : string
}.

Definition ScopedExecutionTimer_new (name : string) : M ScopedExecutionTimer :=
  start ← WallTimeInSeconds;
  mret {| start_time_ := start; name_ := name |}.

Definition ScopedExecutionTimer_delete (timer : ScopedExecutionTimer) : M unit :=
  now ← WallTimeInSeconds;
  self ← get_this;
  set_execution_summary_
    (IncrementTimeAndCalls (name_ timer) (now - start_time_ timer)
       (execution_summary_ self)).

Definition CreateJacobian : M N := mret NULL.

Definition Evaluate (evaluate_options : EvaluateOptions)
    (state cost residuals gradient jacobian : N) : M bool :=
  CHECK (jacobian =? NULL)%N;;
  total_timer ← ScopedExecutionTimer_new "Evaluator::Total";
  call_type_timer ←
    ScopedExecutionTimer_new
      (if (gradient =? NULL)%N then "Evaluator::Residual"
       else "Evaluator::Jacobian");
  self ← get_this;
  result ← on_mem (GradientProblem.Evaluate (problem_ self) state cost gradient);
  (* the timers go out of scope in reverse order of construction *)
  ScopedExecutionTimer_delete call_type_timer;;
  ScopedExecutionTimer_delete total_timer;;
  mret result.

Definition Plus (state delta state_plus_delta : N) : M bool :=
  self ← get_this;
  on_mem (GradientProblem.Plus (problem_ self) state delta state_plus_delta).

Definition EvaluateGradientNorms (x : Vector.t)
    (state : LineSearchMinimizerState.t) (message : N) : M bool :=
  self ← get_this;
  ok ← on_mem (GradientProblem.EvaluateGradientNorms (problem_ self)
                 (Vector.data x)
                 (Vector.data (LineSearchMinimizerState.gradient state))
                 (LineSearchMinimizerState.gradient_squared_norm state)
                 (LineSearchMinimizerState.gradient_max_norm state));
  if (ok : bool) then mret true
  else on_state (Evaluator_EvaluateGradientNorms x state message).

Definition NextDirection
    (previous_search_direction : N) (previous_step_size : Qc)
    (current_gradient previous_gradient : N)
    (getNextDirectionUpdateContext : Qc → NextDirectionUpdateContext.t)
    (approximate_eigenvalue_scale_ search_direction : N)
    (getRightMultiplyContext : list RightMultiplyContext.t)
    (use_approximate_eigenvalue_scaling_ : bool)
    (search_direction_dot_current_gradient : N) : M bool :=
  self ← get_this;
  on_mem (GradientProblem.NextDirection (problem_ self)
            previous_search_direction previous_step_size
            current_gradient previous_gradient
            getNextDirectionUpdateContext
            approximate_eigenvalue_scale_ search_direction
            getRightMultiplyContext
            use_approximate_eigenvalue_scaling_
            search_direction_dot_current_gradient).

Definition NumParameters : M Z :=
  self ← get_this; mret (GradientProblem.NumParameters (problem_ self)).

Definition NumEffectiveParameters : M Z :=
  self ← get_this; mret (GradientProblem.NumLocalParameters (problem_ self)).

Definition NumResiduals : M Z := mret 1%Z.

Definition Statistics : M (gmap string CallStatistics.t) :=
  self ← get_this; mret (execution_summary_ self).

(** The public interface as a datatype of calls, to speak about sequences
    of calls on one evaluator. *)
Inductive Call : Type :=
| CallCreateJacobian
| CallEvaluate (evaluate_options : EvaluateOptions)
    (state cost residuals gradient jacobian : N)
| CallPlus (state delta state_plus_delta : N)
| CallEvaluateGradientNorms (x : Vector.t)
    (state : LineSearchMinimizerState.t) (message : N)
| CallNextDirection
    (previous_search_direction : N) (previous_step_size : Qc)
    (current_gradient previous_gradient : N)
    (getNextDirectionUpdateContext : Qc → NextDirectionUpdateContext.t)
    (approximate_eigenvalue_scale_ search_direction : N)
    (getRightMultiplyContext : list RightMultiplyContext.t)
    (use_approximate_eigenvalue_scaling_ : bool)
    (search_direction_dot_current_gradient : N)
| CallNumParameters
| CallNumEffectiveParameters
| CallNumResiduals
| CallStatistics.

Definition is_Evaluate (c : Call) : bool :=
  match c with
  | CallEvaluate _ _ _ _ _ _ => true
  | _ => false
  end.

(** Make the call and drop what it returns. *)
Definition run (c : Call) : M unit :=
  match c with
  | CallCreateJacobian => CreateJacobian;; mret ()
  | CallEvaluate o state cost residuals gradient jacobian =>
      Evaluate o state cost residuals gradient jacobian;; mret ()
  | CallPlus state delta state_plus_delta =>
      Plus state delta state_plus_delta;; mret ()
  | CallEvaluateGradientNorms x state message =>
      EvaluateGradientNorms x state message;; mret ()
  | CallNextDirection d a g g' u e sd r b o =>
      NextDirection d a g g' u e sd r b o;; mret ()
  | CallNumParameters => NumParameters;; mret ()
  | CallNumEffectiveParameters => NumEffectiveParameters;; mret ()
  | CallNumResiduals => NumResiduals;; mret ()
  | CallStatistics => Statistics;; mret ()
  end.

Fixpoint run_all (cs : list Call) : M unit :=
  match cs with
  | [] => mret ()
  | c :: cs' => run c;; run_all cs'
  end.

End Methods.

(** Modelled from the spec: the base class's [Evaluator::EvaluateGradientNorms],
    which the files at hand only call: "a default Euclidean-norm
    computation" from the gradient vector, here the sum of squares and the
    largest absolute entry, written to the two norm members. *)
Definition Euclidean_EvaluateGradientNorms (x : Vector.t)
    (state : LineSearchMinimizerState.t) (message : N) (σ : State)
    : bool * State :=
  let g :=
    load_vec (mem σ)
      (Vector.data (LineSearchMinimizerState.gradient state))
      (Z.to_nat (Vector.size (LineSearchMinimizerState.gradient state))) in
  let squared_norm := QuasiNewtonDirectionUpdater.dot g g in
  let max_norm :=
    foldr (λ gi m, if decide (Qcabs gi ≤ m) then m else Qcabs gi) 0 g in
  (true,
   {| this := this σ;
      mem :=
        store
          (store (mem σ)
             (LineSearchMinimizerState.gradient_squared_norm state)
             squared_norm)
          (LineSearchMinimizerState.gradient_max_norm state) max_norm;
      clock_reads := clock_reads σ |}).

End GradientProblemEvaluator.

(** ** The example of gradient_problem.h

    Rosenbrock's function [f(x,y) = (1-x)^2 + 100(y - x^2)^2], as the header's
    comment writes it. *)

Module Rosenbrock.

Definition Evaluate (parameters cost gradient : N) (h : gmap N Qc)
    : bool * gmap N Qc :=
  let x := load h parameters in
  let y := load h (N.succ parameters) in
  let h1 :=
    store h cost
      ((1 - x) * (1 - x) + Qc_of_Z 100 * (y - x * x) * (y - x * x)) in
  let h2 :=
    if (gradient =? NULL)%N then h1
    else
      store
        (store h1 gradient
           (- 2 * (1 - x) - Qc_of_Z 200 * (y - x * x) * 2 * x))
        (N.succ gradient) (Qc_of_Z 200 * (y - x * x)) in
  (true, h2).

Definition NumParameters : Z := 2.

(** [class Rosenbrock : public ceres::FirstOrderFunction]. *)
Definition function : FirstOrderFunction.t :=
  FirstOrderFunction.derive Evaluate NumParameters.

(** [ceres::GradientProblem problem(new Rosenbrock())]. *)
Definition problem : GradientProblem.t := GradientProblem.make function None.

(** A memory to run the examples in: the point [(-1.2, 1)] at address 10, a
    gradient [(3, 4)] at 20, its predecessor [(1, 1)] at 26, a search
    direction buffer at 30, the previous direction at 34, a zero update at
    40, scalars at 50, 51 and 52, and a residual at 60. *)
Definition memory : gmap N Qc :=
  list_to_map
    [(10%N, Q2Qc (-6 # 5)); (11%N, 1);
     (20%N, Qc_of_Z 3); (21%N, Qc_of_Z 4);
     (26%N, 1); (27%N, 1);
     (30%N, Qc_of_Z 7); (31%N, Qc_of_Z 7);
     (34%N, 1); (35%N, 0);
     (40%N, 0); (41%N, 0);
     (50%N, 2); (51%N, Qc_of_Z 7); (52%N, Qc_of_Z 7);
     (60%N, Qc_of_Z 9)].

(** A clock that advances by one second at every reading. *)
Definition clock (k : nat) : Qc := Qc_of_Z (Z.of_nat k).





(** The retraction that adds the update to the point. *)
Definition identity_parameterization : LocalParameterization.t :=
  {| LocalParameterization.Plus := GradientProblem.add_Plus 2;
     LocalParameterization.LocalSize := 2 |}.


End Rosenbrock.

(** ** Reading a summary and a sequence of calls *)

(** The statistics under a label, as [std::map::operator[]] would give them:
    all zero for a label that has no entry. *)
Definition stat (label : string) (σ : GradientProblemEvaluator.State)
    : CallStatistics.t :=
  default CallStatistics.init
    (GradientProblemEvaluator.execution_summary_
       (GradientProblemEvaluator.this σ) !! label).

(** The label of the second timer of [Evaluate]. *)
Definition call_type_label (gradient : N) : string :=
  if (gradient =? NULL)%N then "Evaluator::Residual" else "Evaluator::Jacobian".

(** Does the call run a timer with this label?  Only [Evaluate] runs timers:
    the total one and the one of its call type. *)
Definition books {EvaluateOptions : Type} (label : string)
    (c : GradientProblemEvaluator.Call EvaluateOptions) : bool :=
  match c with
  | GradientProblemEvaluator.CallEvaluate _ _ _ _ _ gradient _ =>
      bool_decide (label = "Evaluator::Total")
      || bool_decide (label = call_type_label gradient)
  | _ => false
  end.

(** How many calls of the sequence run a timer with this label. *)
Definition bookings {EvaluateOptions : Type} (label : string)
    (cs : list (GradientProblemEvaluator.Call EvaluateOptions)) : Z :=
  Z.of_nat (length (filter (λ c, books label c = true) cs)).

(** Is the call an [Evaluate] that asks for a Jacobian? *)
Definition asks_for_jacobian {EvaluateOptions : Type}
    (c : GradientProblemEvaluator.Call EvaluateOptions) : bool :=
  match c with
  | GradientProblemEvaluator.CallEvaluate _ _ _ _ _ _ jacobian =>
      negb (jacobian =? NULL)%N
  | _ => false
  end.

(** The summary keeps its books in order: the total count is the sum of the
    two call-type counts, no time is negative, and the total time is at
    least each of the two call-type times. *)
Definition balanced (σ : GradientProblemEvaluator.State) : Prop :=
  CallStatistics.calls (stat "Evaluator::Total" σ)
  = (CallStatistics.calls (stat "Evaluator::Residual" σ)
     + CallStatistics.calls (stat "Evaluator::Jacobian" σ))%Z
  ∧ 0 ≤ CallStatistics.time (stat "Evaluator::Residual" σ)
  ∧ 0 ≤ CallStatistics.time (stat "Evaluator::Jacobian" σ)
  ∧ CallStatistics.time (stat "Evaluator::Residual" σ)
    ≤ CallStatistics.time (stat "Evaluator::Total" σ)
  ∧ CallStatistics.time (stat "Evaluator::Jacobian" σ)
    ≤ CallStatistics.time (stat "Evaluator::Total" σ).

(** * Properties *)

Import GradientProblemEvaluator.

(** Unfold one layer of the evaluator's monad. *)
Ltac step_M :=
  unfold mbind, M_bind, bind, mret, M_ret, ret, CHECK, on_mem, on_state,
    get_this, set_execution_summary_, WallTimeInSeconds; simpl.

(** ** The model on concrete inputs *)

(** The header's objective at [(-1.2, 1)]: cost [24.2], gradient
    [(-215.6, -88)]. *)
Example Rosenbrock_at_the_usual_start :
  let r := Rosenbrock.Evaluate 10 51 20 Rosenbrock.memory in
  r.1 = true
  ∧ load r.2 51 = Q2Qc (242 # 10)
  ∧ load_vec r.2 20 2 = [Q2Qc (-2156 # 10); Qc_of_Z (-88)].
Proof. cbv zeta. repeat split; compute_done. Qed.

(** Without gradient the same cost is written and the gradient buffer keeps
    its content. *)
Example Rosenbrock_without_gradient :
  let r := Rosenbrock.Evaluate 10 51 NULL Rosenbrock.memory in
  load r.2 51 = Q2Qc (242 # 10)
  ∧ load_vec r.2 20 2 = load_vec Rosenbrock.memory 20 2.
Proof. cbv zeta. split; compute_done. Qed.

(** The two loops on [f(x) = x²] with the pair [s = 1], [y = 2] and the
    gradient 4 at [x = 2]: the direction is the Newton step [−2]. *)
Example two_loop_on_a_parabola :
  QuasiNewtonDirectionUpdater.two_loop (Q2Qc (1 # 1000)) false 1
    [ {| QuasiNewtonDirectionUpdater.s := [1]%list;
         QuasiNewtonDirectionUpdater.y := [2]%list;
         QuasiNewtonDirectionUpdater.s_dot_y := 2 |} ]%list
    [Qc_of_Z 4]%list
  = [Qc_of_Z (-2)]%list.
Proof. compute_done. Qed.

(** ** The optional capabilities of an objective *)

(** C5: an objective that overrides neither optional capability answers
    [false] from both [EvaluateGradientNorms] and [NextDirection], whatever
    the arguments, and leaves the memory as it was. *)
Theorem optional_capabilities_default_unsupported
    (Evaluate_impl : N → N → N → gmap N Qc → bool * gmap N Qc)
    (NumParameters_impl : Z)
    (x gradient gradient_squared_norm gradient_max_norm : N)
    (previous_search_direction : N) (previous_step_size : Qc)
    (current_gradient previous_gradient : N)
    (getNextDirectionUpdateContext : Qc → NextDirectionUpdateContext.t)
    (approximate_eigenvalue_scale_ search_direction : N)
    (getRightMultiplyContext : list RightMultiplyContext.t)
    (use_approximate_eigenvalue_scaling_ : bool)
    (search_direction_dot_current_gradient : N)
    (h : gmap N Qc) :
  let f := FirstOrderFunction.derive Evaluate_impl NumParameters_impl in
  FirstOrderFunction.EvaluateGradientNorms f
      x gradient gradient_squared_norm gradient_max_norm h = (false, h)
  ∧ FirstOrderFunction.NextDirection f
      previous_search_direction previous_step_size
      current_gradient previous_gradient getNextDirectionUpdateContext
      approximate_eigenvalue_scale_ search_direction getRightMultiplyContext
      use_approximate_eigenvalue_scaling_
      search_direction_dot_current_gradient h = (false, h).
Proof. split; reflexivity. Qed.

(** ** The adapter's constant answers *)

(** C7: [NumResiduals] returns 1 on every evaluator and changes nothing,
    whatever problem the evaluator wraps: [NumParameters] on the same
    evaluator follows the problem, [NumResiduals] does not. *)
Theorem NumResiduals_always_one
    (problem : GradientProblem.t) (summary : gmap string CallStatistics.t)
    (h : gmap N Qc) (k : nat) :
  let σ :=
    {| this := {| problem_ := problem; execution_summary_ := summary |};
       mem := h; clock_reads := k |} in
  NumResiduals σ = Returns 1%Z σ
  ∧ NumParameters σ = Returns (GradientProblem.NumParameters problem) σ.
Proof. intros σ. split; reflexivity. Qed.

(** C8: [CreateJacobian] returns the null pointer on every evaluator, on
    every call, and changes nothing. *)
Theorem CreateJacobian_always_null (σ : State) :
  CreateJacobian σ = Returns NULL σ.
Proof. reflexivity. Qed.

(** ** The Jacobian contract of [Evaluate] *)

(** C2: with a non-null [jacobian] (an address [N.pos j]) [Evaluate] aborts
    on its [CHECK]; with a null one it does not abort: it returns what the
    problem's [Evaluate] returns, in the memory the problem left. *)
Theorem Evaluate_aborts_iff_jacobian
    (clock : nat → Qc) (EvaluateOptions : Type)
    (evaluate_options : EvaluateOptions)
    (state cost residuals gradient : N) (j : positive) (σ : State) :
  Evaluate clock EvaluateOptions evaluate_options
      state cost residuals gradient (N.pos j) σ = Fatal
  ∧ ∃ σ' : State,
      Evaluate clock EvaluateOptions evaluate_options
          state cost residuals gradient NULL σ
        = Returns
            (GradientProblem.Evaluate (problem_ (this σ))
               state cost gradient (mem σ)).1 σ'
      ∧ mem σ'
        = (GradientProblem.Evaluate (problem_ (this σ))
             state cost gradient (mem σ)).2.
Proof.
  split; [reflexivity|].
  unfold Evaluate, ScopedExecutionTimer_new, ScopedExecutionTimer_delete.
  step_M.
  destruct (GradientProblem.Evaluate _ state cost gradient (mem σ))
    as [result h'].
  simpl. eexists. split; reflexivity.
Qed.

(** ** The gradient norms *)

(** C4: [EvaluateGradientNorms] first asks the problem.  When the problem
    answers [true] the adapter returns [true] in the memory the problem
    left, whatever the base class's function is: it is not invoked.  When
    the problem answers [false] the adapter's result is the result of the
    base class's function, run after the problem's attempt. *)
Theorem EvaluateGradientNorms_falls_back
    (Evaluator_EvaluateGradientNorms :
       Vector.t → LineSearchMinimizerState.t → N → State → bool * State)
    (x : Vector.t) (state : LineSearchMinimizerState.t) (message : N)
    (σ : State) :
  let attempt :=
    GradientProblem.EvaluateGradientNorms (problem_ (this σ))
      (Vector.data x)
      (Vector.data (LineSearchMinimizerState.gradient state))
      (LineSearchMinimizerState.gradient_squared_norm state)
      (LineSearchMinimizerState.gradient_max_norm state) (mem σ) in
  let σ1 :=
    {| this := this σ; mem := attempt.2; clock_reads := clock_reads σ |} in
  if attempt.1 then
    ∀ any_base : Vector.t → LineSearchMinimizerState.t → N → State → bool * State,
      EvaluateGradientNorms any_base x state message σ = Returns true σ1
  else
    EvaluateGradientNorms Evaluator_EvaluateGradientNorms x state message σ
      = Returns (Evaluator_EvaluateGradientNorms x state message σ1).1
                (Evaluator_EvaluateGradientNorms x state message σ1).2.
Proof.
  intros attempt σ1. subst σ1 attempt.
  unfold EvaluateGradientNorms. step_M.
  destruct (GradientProblem.EvaluateGradientNorms _ _ _ _ _ (mem σ))
    as [[] h']; simpl.
  - reflexivity.
  - destruct (Evaluator_EvaluateGradientNorms _ _ _ _) as [b σ']. reflexivity.
Qed.

(** ** Call statistics *)

Lemma Qc_interval_le (t0 t1 t2 t3 : Qc) :
  t0 ≤ t1 → t2 ≤ t3 → t2 - t1 ≤ t3 - t0.
Proof.
  intros H01 H23. unfold Qcminus.
  apply Qcplus_le_compat; [exact H23|].
  apply Qcopp_le_compat. exact H01.
Qed.

Lemma clock_monotone_le (clock : nat → Qc) :
  (∀ k, clock k ≤ clock (S k)) → ∀ i j, (i ≤ j)%nat → clock i ≤ clock j.
Proof.
  intros Hstep i j Hij. induction Hij as [|j _ IH].
  - apply Qcle_refl.
  - eapply Qcle_trans; [exact IH | apply Hstep].
Qed.

(** What one [Evaluate] with a null [jacobian] does to the state: four clock
    readings, the problem's [Evaluate] on the memory, and one booking under
    the label of the call and one under the total. *)
Lemma Evaluate_returns
    (clock : nat → Qc) (EvaluateOptions : Type)
    (evaluate_options : EvaluateOptions)
    (state cost residuals gradient : N) (σ : State) :
  let k := clock_reads σ in
  let label :=
    if (gradient =? NULL)%N then "Evaluator::Residual"
    else "Evaluator::Jacobian" in
  let r :=
    GradientProblem.Evaluate (problem_ (this σ)) state cost gradient (mem σ) in
  Evaluate clock EvaluateOptions evaluate_options
      state cost residuals gradient NULL σ
  = Returns r.1
      {| this :=
           {| problem_ := problem_ (this σ);
              execution_summary_ :=
                IncrementTimeAndCalls "Evaluator::Total"
                  (clock (3 + k)%nat - clock k)
                  (IncrementTimeAndCalls label
                     (clock (2 + k)%nat - clock (1 + k)%nat)
                     (execution_summary_ (this σ))) |};
         mem := r.2;
         clock_reads := (4 + k)%nat |}.
Proof.
  intros k label r. subst k label r.
  unfold Evaluate, ScopedExecutionTimer_new, ScopedExecutionTimer_delete.
  step_M.
  destruct (GradientProblem.Evaluate _ state cost gradient (mem σ))
    as [result h'].
  reflexivity.
Qed.

(** C3: on a freshly constructed evaluator, one [Evaluate] without gradient
    and one with gradient, in either order, leave call count 1 under each of
    "Evaluator::Residual" and "Evaluator::Jacobian" and call count 2 under
    "Evaluator::Total", whose time is at least the sum of the other two,
    provided the wall clock never runs backwards. *)
Theorem Statistics_after_one_call_of_each_kind
    (clock : nat → Qc) (EvaluateOptions : Type)
    (clock_monotone : ∀ k, clock k ≤ clock (S k))
    (problem : GradientProblem.t) (h : gmap N Qc) (k : nat)
    (options1 options2 : EvaluateOptions)
    (state1 cost1 residuals1 state2 cost2 residuals2 : N)
    (g : positive) (gradient_free_first : bool) :
  let σ0 := {| this := new problem; mem := h; clock_reads := k |} in
  let gradient1 := if gradient_free_first then NULL else N.pos g in
  let gradient2 := if gradient_free_first then N.pos g else NULL in
  ∃ (stats : gmap string CallStatistics.t) (σ' : State)
    (gradient_free gradient_requested total : CallStatistics.t),
    (Evaluate clock EvaluateOptions options1
       state1 cost1 residuals1 gradient1 NULL;;
     Evaluate clock EvaluateOptions options2
       state2 cost2 residuals2 gradient2 NULL;;
     Statistics) σ0 = Returns stats σ'
    ∧ stats !! "Evaluator::Residual" = Some gradient_free
    ∧ CallStatistics.calls gradient_free = 1%Z
    ∧ stats !! "Evaluator::Jacobian" = Some gradient_requested
    ∧ CallStatistics.calls gradient_requested = 1%Z
    ∧ stats !! "Evaluator::Total" = Some total
    ∧ CallStatistics.calls total = 2%Z
    ∧ CallStatistics.time gradient_free
        + CallStatistics.time gradient_requested
      ≤ CallStatistics.time total.
Proof.
  intros σ0 gradient1 gradient2.
  assert (H01 := clock_monotone k).
  assert (H23 := clock_monotone (2 + k)%nat).
  assert (H45 := clock_monotone (4 + k)%nat).
  assert (H67 := clock_monotone (6 + k)%nat).
  pose proof (Qc_interval_le _ _ _ _ H01 H23) as Hfirst.
  pose proof (Qc_interval_le _ _ _ _ H45 H67) as Hsecond.
  unfold mbind at 1 2, M_bind, bind.
  rewrite Evaluate_returns. cbv zeta. rewrite Evaluate_returns. cbv zeta.
  subst σ0 gradient1 gradient2. simpl.
  unfold Statistics. step_M.
  unfold IncrementTimeAndCalls.
  destruct gradient_free_first; simpl;
    eexists _, _, _, _, _;
    (split; [reflexivity|]);
    repeat (split; [rewrite ?lookup_insert_eq, ?lookup_insert_ne by done;
                    rewrite ?lookup_insert_eq; reflexivity|]);
    simpl; rewrite !Qcplus_0_l.
  - apply Qcplus_le_compat; assumption.
  - rewrite Qcplus_comm. apply Qcplus_le_compat; assumption.
Qed.

(** ** Memory lemmas *)

Lemma load_store_eq (h : gmap N Qc) (p : N) (v : Qc) :
  load (store h p v) p = v.
Proof. unfold load, store. by rewrite lookup_insert_eq. Qed.

Lemma load_store_ne (h : gmap N Qc) (p q : N) (v : Qc) :
  p ≠ q → load (store h p v) q = load h q.
Proof. intros Hne. unfold load, store. by rewrite lookup_insert_ne. Qed.

Lemma length_load_vec (h : gmap N Qc) (n : nat) :
  ∀ p, length (load_vec h p n) = n.
Proof. induction n as [|n IH]; intros p; simpl; [done | by rewrite IH]. Qed.

Lemma load_vec_lookup (h : gmap N Qc) (n : nat) :
  ∀ p i, (i < n)%nat →
    load_vec h p n !! i = Some (load h (p + N.of_nat i)%N).
Proof.
  induction n as [|n IH]; intros p i Hi; [lia|].
  destruct i as [|i]; simpl.
  - by rewrite N.add_0_r.
  - rewrite IH by lia. do 2 f_equal. lia.
Qed.

(** Cells outside the block written by [store_vec] keep their content. *)
Lemma load_store_vec_outside (v : list Qc) :
  ∀ (h : gmap N Qc) (p q : N),
    (q < p ∨ p + N.of_nat (length v) ≤ q)%N →
    load (store_vec h p v) q = load h q.
Proof.
  induction v as [|x v IH]; intros h p q Hq; simpl in *; [done|].
  rewrite IH by lia. apply load_store_ne. lia.
Qed.

Lemma load_vec_store_vec (v : list Qc) :
  ∀ (h : gmap N Qc) (p : N), load_vec (store_vec h p v) p (length v) = v.
Proof.
  induction v as [|x v IH]; intros h p; simpl; [done|].
  rewrite IH. f_equal.
  rewrite load_store_vec_outside by lia. apply load_store_eq.
Qed.


(** ** What [Evaluate] leaves alone *)

(** C9, as amended: [Evaluate] makes no use of its [residuals] argument:
    the outcome is the same whatever pointer is passed for it.  And the cell
    it points to holds after the call what it held before, when that cell is
    not the cost cell, not in the gradient buffer and not in the problem's
    scratch buffer, for a problem whose [Evaluate] writes to those and
    nowhere else. *)
Theorem Evaluate_ignores_residuals
    (clock : nat → Qc) (EvaluateOptions : Type)
    (evaluate_options : EvaluateOptions)
    (state cost residuals gradient : N) (σ : State)
    (scratch_ : N → Prop) :
  let problem := problem_ (this σ) in
  let n := Z.to_nat (GradientProblem.NumParameters problem) in
  ∀ (problem_writes_its_outputs_only :
       ∀ (parameters cost' gradient' : N) (h : gmap N Qc) (a : N),
         a ≠ cost' → ¬ in_block gradient' n a → ¬ scratch_ a →
         (GradientProblem.Evaluate problem parameters cost' gradient' h).2 !! a
         = h !! a)
    (residuals_apart :
       residuals ≠ cost ∧ ¬ in_block gradient n residuals
       ∧ ¬ scratch_ residuals),
  (∀ (other_residuals jacobian : N),
     Evaluate clock EvaluateOptions evaluate_options
       state cost other_residuals gradient jacobian σ
     = Evaluate clock EvaluateOptions evaluate_options
         state cost residuals gradient jacobian σ)
  ∧ ∃ (result : bool) (σ' : State),
      Evaluate clock EvaluateOptions evaluate_options
        state cost residuals gradient NULL σ = Returns result σ'
      ∧ mem σ' !! residuals = mem σ !! residuals.
Proof.
  intros problem n Hframe (Hcost & Hgradient & Hscratch).
  split; [reflexivity|].
  rewrite Evaluate_returns. cbv zeta.
  eexists _, _. split; [reflexivity|]. cbn [mem].
  by apply Hframe.
Qed.

(** C9, as stated, fails when the cost cell is passed as [residuals]: on the
    Rosenbrock problem the cell at address 51 holds 7 before the call and
    the cost [24.2] after it. *)
Lemma Evaluate_overwrites_residuals_passed_as_cost :
  ∃ σ' : State,
    Evaluate Rosenbrock.clock unit () 10 51 51 20 NULL
      {| this := new Rosenbrock.problem; mem := Rosenbrock.memory;
         clock_reads := 0 |}
    = Returns true σ'
    ∧ Rosenbrock.memory !! 51%N = Some (Qc_of_Z 7)
    ∧ mem σ' !! 51%N = Some (Q2Qc (242 # 10))
    ∧ mem σ' !! 51%N ≠ Rosenbrock.memory !! 51%N.
Proof.
  rewrite Evaluate_returns. cbv zeta. eexists. split; [reflexivity|].
  cbn [mem]. repeat split; compute_done.
Qed.

(** The example objective writes its cost and, when asked, the two entries
    of its gradient, and nothing else. *)
Lemma Rosenbrock_writes_its_outputs_only
    (parameters cost gradient : N) (h : gmap N Qc) (a : N) :
  a ≠ cost → ¬ in_block gradient 2 a →
  (Rosenbrock.Evaluate parameters cost gradient h).2 !! a = h !! a.
Proof.
  intros Hcost Hblock. unfold Rosenbrock.Evaluate. cbn [snd].
  destruct (gradient =? NULL)%N eqn:Hnull.
  - unfold store. by rewrite lookup_insert_ne.
  - apply N.eqb_neq in Hnull.
    assert (gradient ≠ a ∧ N.succ gradient ≠ a) as [H0 H1].
    { unfold in_block in Hblock. split; intros <-; apply Hblock; lia. }
    unfold store. by rewrite !lookup_insert_ne.
Qed.

(** ** What touches the statistics *)

Lemma run_keeps_execution_summary
    (clock : nat → Qc) (EvaluateOptions : Type)
    (Evaluator_EvaluateGradientNorms :
       Vector.t → LineSearchMinimizerState.t → N → State → bool * State)
    (base_keeps_summary :
       ∀ x state message σ,
         execution_summary_
           (this (Evaluator_EvaluateGradientNorms x state message σ).2)
         = execution_summary_ (this σ))
    (c : Call EvaluateOptions) (σ : State) :
  is_Evaluate EvaluateOptions c = false →
  ∃ σ' : State,
    run clock EvaluateOptions Evaluator_EvaluateGradientNorms c σ
      = Returns () σ'
    ∧ execution_summary_ (this σ') = execution_summary_ (this σ).
Proof.
  intros Hc. destruct c; try discriminate Hc; unfold run;
    try (eexists; split; reflexivity).
  - unfold Plus. step_M.
    destruct (GradientProblem.Plus _ _ _ _ _) as [b h'].
    eexists; split; reflexivity.
  - unfold EvaluateGradientNorms. step_M.
    destruct (GradientProblem.EvaluateGradientNorms _ _ _ _ _ _) as [[] h'];
      simpl; [eexists; split; reflexivity|].
    match goal with
    | |- context [Evaluator_EvaluateGradientNorms ?a ?b ?c ?s] =>
        pose proof (base_keeps_summary a b c s) as Hbase;
        destruct (Evaluator_EvaluateGradientNorms a b c s) as [b' σ']
    end.
    eexists; split; [reflexivity | exact Hbase].
  - unfold NextDirection. step_M.
    destruct (GradientProblem.NextDirection _ _ _ _ _ _ _ _ _ _ _ _)
      as [b h'].
    eexists; split; reflexivity.
Qed.

(** C10: a sequence of calls none of which is [Evaluate] runs to its end and
    leaves the execution summary as it was, so [Statistics] returns the same
    map after it as before; the base class's [EvaluateGradientNorms] is
    taken not to book any call itself.  [Evaluate], with a null [jacobian],
    does change the summary: the call count under "Evaluator::Total" goes up
    by one. *)
Theorem only_Evaluate_changes_the_statistics
    (clock : nat → Qc) (EvaluateOptions : Type)
    (Evaluator_EvaluateGradientNorms :
       Vector.t → LineSearchMinimizerState.t → N → State → bool * State)
    (base_keeps_summary :
       ∀ x state message σ,
         execution_summary_
           (this (Evaluator_EvaluateGradientNorms x state message σ).2)
         = execution_summary_ (this σ))
    (cs : list (Call EvaluateOptions))
    (no_Evaluate : Forall (λ c, is_Evaluate EvaluateOptions c = false) cs)
    (σ : State) :
  (∃ σ' : State,
     run_all clock EvaluateOptions Evaluator_EvaluateGradientNorms cs σ
       = Returns () σ'
     ∧ execution_summary_ (this σ') = execution_summary_ (this σ)
     ∧ Statistics σ' = Returns (execution_summary_ (this σ)) σ')
  ∧ ∀ (evaluate_options : EvaluateOptions) (state cost residuals gradient : N),
    ∃ (result : bool) (σ' : State),
      Evaluate clock EvaluateOptions evaluate_options
        state cost residuals gradient NULL σ = Returns result σ'
      ∧ CallStatistics.calls
          (default CallStatistics.init
             (execution_summary_ (this σ') !! "Evaluator::Total"))
        = (CallStatistics.calls
             (default CallStatistics.init
                (execution_summary_ (this σ) !! "Evaluator::Total")) + 1)%Z.
Proof.
  split.
  - revert σ. induction no_Evaluate as [|c cs Hc _ IH]; intros σ.
    + exists σ. repeat split; reflexivity.
    + destruct (run_keeps_execution_summary clock EvaluateOptions
                  Evaluator_EvaluateGradientNorms base_keeps_summary c σ Hc)
        as (σ1 & Hrun & Hsum).
      destruct (IH σ1) as (σ2 & Hrest & Hsum2 & Hstat).
      exists σ2. simpl. unfold mbind, M_bind, bind. rewrite Hrun.
      split; [exact Hrest|]. split; [congruence|].
      rewrite Hstat. f_equal. exact Hsum.
  - intros evaluate_options state cost residuals gradient.
    rewrite Evaluate_returns. cbv zeta.
    eexists _, _. split; [reflexivity|]. simpl.
    unfold IncrementTimeAndCalls at 1. rewrite lookup_insert_eq. simpl.
    unfold IncrementTimeAndCalls.
    destruct (gradient =? NULL)%N; by rewrite lookup_insert_ne.
Qed.

(** ** [Plus] *)

Lemma zip_with_Qcplus_zero (xs : list Qc) :
  zip_with Qcplus xs (replicate (length xs) 0) = xs.
Proof.
  induction xs as [|x xs IH]; simpl; [done|].
  by rewrite IH, Qcplus_0_r.
Qed.

(** What [add_Plus] leaves in the output block. *)
Lemma add_Plus_block (n : nat) (x delta x_plus_delta : N) (h : gmap N Qc) :
  load_vec (GradientProblem.add_Plus n x delta x_plus_delta h).2
    x_plus_delta n
  = zip_with Qcplus (load_vec h x n) (load_vec h delta n).
Proof.
  unfold GradientProblem.add_Plus. simpl.
  set (v := zip_with Qcplus _ _).
  assert (length v = n) as Hlen.
  { subst v. rewrite length_zip_with, !length_load_vec. lia. }
  clearbody v. subst n. apply load_vec_store_vec.
Qed.

Lemma add_Plus_lawful (n : nat) :
  LocalParameterization.lawful n
    {| LocalParameterization.Plus := GradientProblem.add_Plus n;
       LocalParameterization.LocalSize := Z.of_nat n |}.
Proof.
  intros h x delta x_plus_delta.
  cbn [LocalParameterization.Plus LocalParameterization.LocalSize].
  rewrite Nat2Z.id. intros Hzero.
  rewrite add_Plus_block, Hzero.
  rewrite <- (length_load_vec h n x) at 2. apply zip_with_Qcplus_zero.
Qed.

(** C6: [Plus] with a zero update leaves the point [x] in the output, for a
    problem without retraction and for one whose retraction meets the
    spec's requirement [Plus(x, 0) = x]; and without retraction the output
    is [x[i] + delta[i]] at every index [i] of the ambient space. *)
Theorem Plus_zero_and_addition
    (function_ : FirstOrderFunction.t)
    (parameterization_ : option LocalParameterization.t)
    (summary : gmap string CallStatistics.t) (h : gmap N Qc) (k : nat)
    (x zero delta x_plus_delta : N) :
  let n := Z.to_nat (FirstOrderFunction.NumParameters function_) in
  let problem := GradientProblem.make function_ parameterization_ in
  let n_local := Z.to_nat (GradientProblem.NumLocalParameters problem) in
  let evaluator (p : GradientProblem.t) :=
    {| this := {| problem_ := p; execution_summary_ := summary |};
       mem := h; clock_reads := k |} in
  ∀ (retraction_lawful :
       match parameterization_ with
       | Some r => LocalParameterization.lawful n r
       | None => True
       end)
    (update_is_zero : load_vec h zero n_local = replicate n_local 0),
  (∃ (result : bool) (σ' : State),
     Plus x zero x_plus_delta (evaluator problem) = Returns result σ'
     ∧ load_vec (mem σ') x_plus_delta n = load_vec h x n)
  ∧ ∃ σ' : State,
      Plus x delta x_plus_delta
        (evaluator (GradientProblem.make function_ None))
      = Returns true σ'
      ∧ ∀ i : nat, (i < n)%nat →
          load (mem σ') (x_plus_delta + N.of_nat i)
          = load h (x + N.of_nat i) + load h (delta + N.of_nat i).
Proof.
  intros n problem n_local evaluator Hlaw Hzero. split.
  - unfold Plus. step_M.
    destruct parameterization_ as [r|]; simpl in *.
    + specialize (Hlaw h x zero x_plus_delta Hzero).
      destruct (LocalParameterization.Plus r x zero x_plus_delta h)
        as [b h'].
      eexists _, _. split; [reflexivity | exact Hlaw].
    + eexists _, _. split; [reflexivity|]. simpl.
      pose proof (add_Plus_block n x zero x_plus_delta h) as Hblock.
      simpl in Hblock. fold n. rewrite Hblock.
      subst n_local. simpl in Hzero. fold n in Hzero. rewrite Hzero.
      rewrite <- (length_load_vec h n x) at 2. apply zip_with_Qcplus_zero.
  - unfold Plus. step_M. eexists. split; [reflexivity|]. simpl.
    intros i Hi.
    pose proof (add_Plus_block n x delta x_plus_delta h) as Hblock.
    simpl in Hblock. fold n.
    apply (f_equal (λ v, v !! i)) in Hblock.
    rewrite load_vec_lookup in Hblock by done.
    rewrite lookup_zip_with, !load_vec_lookup in Hblock by done.
    simpl in Hblock. congruence.
Qed.

(** ** The direction update *)

Import QuasiNewtonDirectionUpdater.








(** Two calls on a fresh evaluator of the Rosenbrock problem, with a clock
    that ticks once per reading. *)
Lemma Statistics_after_one_call_of_each_kind_witness :
  ∃ (stats : gmap string CallStatistics.t) (σ' : State)
    (gradient_free gradient_requested total : CallStatistics.t),
    (Evaluate Rosenbrock.clock unit () 10 51 60 NULL NULL;;
     Evaluate Rosenbrock.clock unit () 10 51 60 20 NULL;;
     Statistics)
      {| this := new Rosenbrock.problem; mem := Rosenbrock.memory;
         clock_reads := 0 |}
    = Returns stats σ'
    ∧ stats !! "Evaluator::Residual" = Some gradient_free
    ∧ CallStatistics.calls gradient_free = 1%Z
    ∧ stats !! "Evaluator::Jacobian" = Some gradient_requested
    ∧ CallStatistics.calls gradient_requested = 1%Z
    ∧ stats !! "Evaluator::Total" = Some total
    ∧ CallStatistics.calls total = 2%Z
    ∧ CallStatistics.time gradient_free
        + CallStatistics.time gradient_requested
      ≤ CallStatistics.time total.
Proof.
  refine (Statistics_after_one_call_of_each_kind
            Rosenbrock.clock unit _ Rosenbrock.problem Rosenbrock.memory 0
            () () 10 51 60 10 51 60 20%positive true).
  intros k. unfold Rosenbrock.clock, Qcle, Qc_of_Z. simpl.
  unfold Qle. simpl. lia.
Defined.

(** [Evaluate] on the Rosenbrock problem, which has no scratch buffer, with
    the residual at address 60 apart from the cost at 51 and the gradient at
    20. *)
Lemma Evaluate_ignores_residuals_witness :
  let σ := {| this := new Rosenbrock.problem; mem := Rosenbrock.memory;
              clock_reads := 0 |} in
  (∀ (other_residuals jacobian : N),
     Evaluate Rosenbrock.clock unit () 10 51 other_residuals 20 jacobian σ
     = Evaluate Rosenbrock.clock unit () 10 51 60 20 jacobian σ)
  ∧ ∃ (result : bool) (σ' : State),
      Evaluate Rosenbrock.clock unit () 10 51 60 20 NULL σ = Returns result σ'
      ∧ mem σ' !! 60%N = Rosenbrock.memory !! 60%N.
Proof.
  refine (Evaluate_ignores_residuals Rosenbrock.clock unit () 10 51 60 20
            {| this := new Rosenbrock.problem; mem := Rosenbrock.memory;
               clock_reads := 0 |} (λ _, False) _ _).
  - intros parameters cost' gradient' h a Hcost Hblock _.
    exact (Rosenbrock_writes_its_outputs_only
             parameters cost' gradient' h a Hcost Hblock).
  - split; [discriminate|]. split; [|tauto].
    unfold in_block. intros [_ Hin]. vm_compute in Hin.
    destruct Hin as [_ Hlt]. discriminate Hlt.
Defined.

(** One call of every member function but [Evaluate], on the Rosenbrock
    problem, with the Euclidean norms as the base class's function. *)
Lemma only_Evaluate_changes_the_statistics_witness :
  let σ := {| this := new Rosenbrock.problem; mem := Rosenbrock.memory;
              clock_reads := 0 |} in
  let gradient := {| Vector.data := 20; Vector.size := 2 |} in
  let cs : list (Call unit) :=
    [ CallCreateJacobian unit;
      CallPlus unit 10 40 30;
      CallEvaluateGradientNorms unit
        {| Vector.data := 10; Vector.size := 2 |}
        {| LineSearchMinimizerState.gradient := gradient;
           LineSearchMinimizerState.gradient_squared_norm := 51;
           LineSearchMinimizerState.gradient_max_norm := 52 |} 0;
      CallNextDirection unit
        34 1 20 26 (λ _, NextDirectionUpdateContext.init) 50 30 [] false 51;
      CallNumParameters unit;
      CallNumEffectiveParameters unit;
      CallNumResiduals unit;
      CallStatistics unit ] in
  ∃ σ' : State,
    run_all Rosenbrock.clock unit Euclidean_EvaluateGradientNorms cs σ
      = Returns () σ'
    ∧ execution_summary_ (this σ') = execution_summary_ (this σ)
    ∧ Statistics σ' = Returns (execution_summary_ (this σ)) σ'.
Proof.
  intros σ gradient cs.
  refine (proj1 (only_Evaluate_changes_the_statistics
            Rosenbrock.clock unit Euclidean_EvaluateGradientNorms _ cs _ σ)).
  - intros x state message σ0. reflexivity.
  - subst cs. repeat constructor.
Defined.

(** [Plus] with the zero update at address 40, on the Rosenbrock objective
    with the adding retraction. *)
Lemma Plus_zero_and_addition_witness :
  let evaluator (p : GradientProblem.t) :=
    {| this := new p; mem := Rosenbrock.memory; clock_reads := 0 |} in
  (∃ (result : bool) (σ' : State),
     Plus 10 40 30
       (evaluator
          (GradientProblem.make Rosenbrock.function
             (Some Rosenbrock.identity_parameterization)))
     = Returns result σ'
     ∧ load_vec (mem σ') 30 2 = load_vec Rosenbrock.memory 10 2)
  ∧ ∃ σ' : State,
      Plus 10 20 30 (evaluator Rosenbrock.problem) = Returns true σ'
      ∧ ∀ i : nat, (i < 2)%nat →
          load (mem σ') (30 + N.of_nat i)
          = load Rosenbrock.memory (10 + N.of_nat i)
            + load Rosenbrock.memory (20 + N.of_nat i).
Proof.
  refine (Plus_zero_and_addition Rosenbrock.function
            (Some Rosenbrock.identity_parameterization)
            ∅ Rosenbrock.memory 0 10 40 20 30 _ _).
  - exact (add_Plus_lawful 2).
  - reflexivity.
Defined.

(** ** The books of the execution summary over sequences of calls *)

Lemma lookup_IncrementTimeAndCalls (name label : string) (elapsed : Qc)
    (s : gmap string CallStatistics.t) :
  IncrementTimeAndCalls name elapsed s !! label
  = if decide (label = name) then
      Some {| CallStatistics.time :=
                CallStatistics.time (default CallStatistics.init (s !! name))
                + elapsed;
              CallStatistics.calls :=
                (CallStatistics.calls (default CallStatistics.init (s !! name))
                 + 1)%Z |}
    else s !! label.
Proof.
  unfold IncrementTimeAndCalls. destruct (decide (label = name)) as [->|Hne].
  - by rewrite lookup_insert_eq.
  - by rewrite lookup_insert_ne.
Qed.

Lemma call_type_label_not_total (gradient : N) :
  call_type_label gradient ≠ "Evaluator::Total".
Proof. unfold call_type_label. by destruct (gradient =? NULL)%N. Qed.

(** The entries of the summary after one [Evaluate] with a null
    [jacobian]. *)
Lemma Evaluate_books
    (clock : nat → Qc) (EvaluateOptions : Type)
    (evaluate_options : EvaluateOptions)
    (state cost residuals gradient : N) (σ : State) :
  ∃ (result : bool) (σ' : State),
    Evaluate clock EvaluateOptions evaluate_options
      state cost residuals gradient NULL σ = Returns result σ'
    ∧ ∀ label : string,
        execution_summary_ (this σ') !! label
        = if decide (label = "Evaluator::Total") then
            Some {| CallStatistics.time :=
                      CallStatistics.time (stat "Evaluator::Total" σ)
                      + (clock (3 + clock_reads σ)%nat - clock (clock_reads σ));
                    CallStatistics.calls :=
                      (CallStatistics.calls (stat "Evaluator::Total" σ) + 1)%Z |}
          else if decide (label = call_type_label gradient) then
            Some {| CallStatistics.time :=
                      CallStatistics.time (stat (call_type_label gradient) σ)
                      + (clock (2 + clock_reads σ)%nat
                         - clock (1 + clock_reads σ)%nat);
                    CallStatistics.calls :=
                      (CallStatistics.calls
                         (stat (call_type_label gradient) σ) + 1)%Z |}
          else execution_summary_ (this σ) !! label.
Proof.
  rewrite Evaluate_returns. cbv zeta. eexists _, _. split; [reflexivity|].
  intros label. cbn [this execution_summary_].
  fold (call_type_label gradient).
  rewrite !lookup_IncrementTimeAndCalls. unfold stat.
  pose proof (call_type_label_not_total gradient) as Hne.
  destruct (decide (label = "Evaluator::Total")) as [->|HT].
  - destruct (decide ("Evaluator::Total" = call_type_label gradient))
      as [E|_]; [by destruct Hne | reflexivity].
  - reflexivity.
Qed.

(** What one call that does not abort does to the entry of a label. *)
Lemma run_books
    (clock : nat → Qc) (EvaluateOptions : Type)
    (Evaluator_EvaluateGradientNorms :
       Vector.t → LineSearchMinimizerState.t → N → State → bool * State)
    (base_keeps_summary :
       ∀ x state message σ,
         execution_summary_
           (this (Evaluator_EvaluateGradientNorms x state message σ).2)
         = execution_summary_ (this σ))
    (c : Call EvaluateOptions) (σ : State) :
  asks_for_jacobian c = false →
  ∃ σ' : State,
    run clock EvaluateOptions Evaluator_EvaluateGradientNorms c σ
      = Returns () σ'
    ∧ ∀ label : string,
        CallStatistics.calls (stat label σ')
        = (CallStatistics.calls (stat label σ)
           + if books label c then 1 else 0)%Z
        ∧ (execution_summary_ (this σ') !! label = None
           ↔ execution_summary_ (this σ) !! label = None
             ∧ books label c = false).
Proof.
  intros Hc. destruct (is_Evaluate EvaluateOptions c) eqn:Hkind.
  - destruct c; try discriminate Hkind. simpl in Hc.
    apply negb_false_iff, N.eqb_eq in Hc. subst jacobian.
    destruct (Evaluate_books clock EvaluateOptions evaluate_options
                state cost residuals gradient σ) as (result & σ' & Hrun & Hbook).
    exists σ'. split.
    { unfold run, mbind, M_bind, bind. by rewrite Hrun. }
    intros label. unfold stat at 1. rewrite Hbook. cbn [books].
    destruct (decide (label = "Evaluator::Total")) as [->|HT].
    + rewrite bool_decide_eq_true_2 by done. simpl. split; [done|].
      split; [done | intros [_ [=]]].
    + rewrite (bool_decide_eq_false_2 _ HT). simpl.
      destruct (decide (label = call_type_label gradient)) as [->|HL].
      * rewrite bool_decide_eq_true_2 by done. simpl. split; [done|].
        split; [done | intros [_ [=]]].
      * rewrite (bool_decide_eq_false_2 _ HL). fold (stat label σ).
        split; [lia | tauto].
  - destruct (run_keeps_execution_summary clock EvaluateOptions
                Evaluator_EvaluateGradientNorms base_keeps_summary c σ Hkind)
      as (σ' & Hrun & Hsum).
    exists σ'. split; [exact Hrun|]. intros label. unfold stat.
    rewrite Hsum.
    assert (books label c = false) as -> by (by destruct c).
    split; [lia | tauto].
Qed.

Lemma bookings_cons {EvaluateOptions : Type} (label : string)
    (c : Call EvaluateOptions) (cs : list (Call EvaluateOptions)) :
  bookings label (c :: cs)
  = ((if books label c then 1 else 0) + bookings label cs)%Z.
Proof.
  unfold bookings. rewrite filter_cons.
  destruct (books label c); simpl; lia.
Qed.

Lemma bookings_nonnegative {EvaluateOptions : Type} (label : string)
    (cs : list (Call EvaluateOptions)) :
  (0 ≤ bookings label cs)%Z.
Proof. unfold bookings. lia. Qed.

(** X1: a sequence of calls without a Jacobian request runs to its end, and
    the call count of every label has then grown by the number of calls of
    the sequence that run a timer with that label; a label has no entry
    afterwards exactly when it had none before and no call of the sequence
    books under it. *)
Theorem counts_follow_the_calls
    (clock : nat → Qc) (EvaluateOptions : Type)
    (Evaluator_EvaluateGradientNorms :
       Vector.t → LineSearchMinimizerState.t → N → State → bool * State)
    (base_keeps_summary :
       ∀ x state message σ,
         execution_summary_
           (this (Evaluator_EvaluateGradientNorms x state message σ).2)
         = execution_summary_ (this σ))
    (cs : list (Call EvaluateOptions))
    (no_jacobian : Forall (λ c, asks_for_jacobian c = false) cs)
    (σ : State) :
  ∃ σ' : State,
    run_all clock EvaluateOptions Evaluator_EvaluateGradientNorms cs σ
      = Returns () σ'
    ∧ ∀ label : string,
        CallStatistics.calls (stat label σ')
        = (CallStatistics.calls (stat label σ) + bookings label cs)%Z
        ∧ (execution_summary_ (this σ') !! label = None
           ↔ execution_summary_ (this σ) !! label = None
             ∧ bookings label cs = 0%Z).
Proof.
  revert σ. induction no_jacobian as [|c cs Hc _ IH]; intros σ.
  - exists σ. split; [reflexivity|]. intros label.
    unfold bookings. simpl. split; [lia | tauto].
  - destruct (run_books clock EvaluateOptions Evaluator_EvaluateGradientNorms
                base_keeps_summary c σ Hc) as (σ1 & Hrun & Hone).
    destruct (IH σ1) as (σ2 & Hrest & Hall).
    exists σ2. split.
    { simpl. unfold mbind, M_bind, bind. by rewrite Hrun. }
    intros label. destruct (Hone label) as [Hcalls1 Hnone1].
    destruct (Hall label) as [Hcalls2 Hnone2].
    rewrite bookings_cons. split; [lia|].
    rewrite Hnone2, Hnone1.
    pose proof (bookings_nonnegative label cs).
    destruct (books label c); intuition (try discriminate; try lia).
Qed.

Lemma run_returns
    (clock : nat → Qc) (EvaluateOptions : Type)
    (Evaluator_EvaluateGradientNorms :
       Vector.t → LineSearchMinimizerState.t → N → State → bool * State)
    (c : Call EvaluateOptions) (σ : State) :
  asks_for_jacobian c = false →
  ∃ σ' : State,
    run clock EvaluateOptions Evaluator_EvaluateGradientNorms c σ
      = Returns () σ'.
Proof.
  intros Hc. destruct c; unfold run; try (eexists; reflexivity).
  - simpl in Hc. apply negb_false_iff, N.eqb_eq in Hc. subst jacobian.
    unfold mbind, M_bind, bind. rewrite Evaluate_returns. cbv zeta.
    eexists; reflexivity.
  - unfold Plus. step_M.
    destruct (GradientProblem.Plus _ _ _ _ _) as [b h']. eexists; reflexivity.
  - unfold EvaluateGradientNorms. step_M.
    destruct (GradientProblem.EvaluateGradientNorms _ _ _ _ _ _) as [[] h'];
      simpl; [eexists; reflexivity|].
    destruct (Evaluator_EvaluateGradientNorms _ _ _ _) as [b' σ'].
    eexists; reflexivity.
  - unfold GradientProblemEvaluator.NextDirection. step_M.
    destruct (GradientProblem.NextDirection _ _ _ _ _ _ _ _ _ _ _ _)
      as [b h'].
    eexists; reflexivity.
Qed.

Lemma run_aborts
    (clock : nat → Qc) (EvaluateOptions : Type)
    (Evaluator_EvaluateGradientNorms :
       Vector.t → LineSearchMinimizerState.t → N → State → bool * State)
    (c : Call EvaluateOptions) (σ : State) :
  asks_for_jacobian c = true →
  run clock EvaluateOptions Evaluator_EvaluateGradientNorms c σ = Fatal.
Proof.
  intros Hc. destruct c; try discriminate Hc. simpl in Hc.
  apply negb_true_iff in Hc.
  unfold run, Evaluate, mbind, M_bind, bind, CHECK. by rewrite Hc.
Qed.

(** X2: a sequence of calls on an evaluator aborts exactly when one of its
    calls is an [Evaluate] with a non-null [jacobian]; whatever the problem
    and the base class do, nothing else makes the adapter abort. *)
Theorem sequence_aborts_iff_jacobian_requested
    (clock : nat → Qc) (EvaluateOptions : Type)
    (Evaluator_EvaluateGradientNorms :
       Vector.t → LineSearchMinimizerState.t → N → State → bool * State)
    (cs : list (Call EvaluateOptions)) (σ : State) :
  run_all clock EvaluateOptions Evaluator_EvaluateGradientNorms cs σ = Fatal
  ↔ Exists (λ c, asks_for_jacobian c = true) cs.
Proof.
  revert σ. induction cs as [|c cs IH]; intros σ.
  - split; [discriminate | intros H; inversion H].
  - rewrite Exists_cons. simpl. unfold mbind, M_bind, bind.
    destruct (asks_for_jacobian c) eqn:Hc.
    + rewrite run_aborts by exact Hc. tauto.
    + destruct (run_returns clock EvaluateOptions
                  Evaluator_EvaluateGradientNorms c σ Hc) as (σ1 & ->).
      rewrite IH. split; [tauto | intros [[=]|H]; exact H].
Qed.

Lemma Qc_nonneg_diff (a b : Qc) : a ≤ b → 0 ≤ b - a.
Proof. intros H. by apply Qcle_minus_iff in H. Qed.

Lemma Qc_add_nonneg (a b : Qc) : 0 ≤ a → 0 ≤ b → 0 ≤ a + b.
Proof.
  intros Ha Hb. rewrite <- (Qcplus_0_l 0). by apply Qcplus_le_compat.
Qed.

Lemma Qc_le_add_nonneg (a b d : Qc) : a ≤ b → 0 ≤ d → a ≤ b + d.
Proof.
  intros H1 H2. rewrite <- (Qcplus_0_r a). by apply Qcplus_le_compat.
Qed.

(** One call keeps the books in order. *)
Lemma run_keeps_balance
    (clock : nat → Qc) (EvaluateOptions : Type)
    (Evaluator_EvaluateGradientNorms :
       Vector.t → LineSearchMinimizerState.t → N → State → bool * State)
    (clock_monotone : ∀ k, clock k ≤ clock (S k))
    (base_keeps_summary :
       ∀ x state message σ,
         execution_summary_
           (this (Evaluator_EvaluateGradientNorms x state message σ).2)
         = execution_summary_ (this σ))
    (c : Call EvaluateOptions) (σ : State) :
  asks_for_jacobian c = false →
  balanced σ →
  ∃ σ' : State,
    run clock EvaluateOptions Evaluator_EvaluateGradientNorms c σ
      = Returns () σ'
    ∧ balanced σ'.
Proof.
  intros Hc Hbal. destruct (is_Evaluate EvaluateOptions c) eqn:Hkind.
  - destruct c; try discriminate Hkind. simpl in Hc.
    apply negb_false_iff, N.eqb_eq in Hc. subst jacobian.
    destruct (Evaluate_books clock EvaluateOptions evaluate_options
                state cost residuals gradient σ) as (result & σ' & Hrun & Hbook).
    exists σ'. split.
    { unfold run, mbind, M_bind, bind. by rewrite Hrun. }
    pose proof (Qc_nonneg_diff _ _ (clock_monotone (1 + clock_reads σ)%nat))
      as Hinner.
    pose proof (Qc_interval_le _ _ _ _
                  (clock_monotone (clock_reads σ))
                  (clock_monotone (2 + clock_reads σ)%nat)) as Houter.
    assert (0 ≤ clock (3 + clock_reads σ)%nat - clock (clock_reads σ))
      as Hspan by (eapply Qcle_trans; [exact Hinner | exact Houter]).
    destruct Hbal as (Hcalls & Hres & Hjac & HresT & HjacT).
    unfold balanced, stat. rewrite !Hbook. unfold call_type_label.
    destruct (gradient =? NULL)%N; simpl;
      fold (stat "Evaluator::Total" σ) (stat "Evaluator::Residual" σ)
           (stat "Evaluator::Jacobian" σ).
    + repeat split; [lia | by apply Qc_add_nonneg | done
                    | by apply Qcplus_le_compat
                    | by apply Qc_le_add_nonneg].
    + repeat split; [lia | done | by apply Qc_add_nonneg
                    | by apply Qc_le_add_nonneg
                    | by apply Qcplus_le_compat].
  - destruct (run_keeps_execution_summary clock EvaluateOptions
                Evaluator_EvaluateGradientNorms base_keeps_summary c σ Hkind)
      as (σ' & Hrun & Hsum).
    exists σ'. split; [exact Hrun|].
    unfold balanced, stat in *. by rewrite Hsum.
Qed.

Lemma fresh_evaluator_balanced (problem : GradientProblem.t)
    (h : gmap N Qc) (k : nat) :
  balanced {| this := new problem; mem := h; clock_reads := k |}.
Proof.
  unfold balanced, stat. simpl. rewrite !lookup_empty. simpl.
  repeat split; done.
Qed.

(** X3: the execution summary of a freshly constructed evaluator has its
    books in order, and every sequence of calls without a Jacobian request
    keeps them so, whether the evaluations succeed or fail: the call count
    under "Evaluator::Total" is the sum of those under "Evaluator::Residual"
    and "Evaluator::Jacobian", no time is negative, and the total time is at
    least the time under each of the two other labels.  The wall clock is
    taken never to run backwards and the base class's
    [EvaluateGradientNorms] not to book calls itself. *)
Theorem books_stay_balanced
    (clock : nat → Qc) (EvaluateOptions : Type)
    (Evaluator_EvaluateGradientNorms :
       Vector.t → LineSearchMinimizerState.t → N → State → bool * State)
    (clock_monotone : ∀ k, clock k ≤ clock (S k))
    (base_keeps_summary :
       ∀ x state message σ,
         execution_summary_
           (this (Evaluator_EvaluateGradientNorms x state message σ).2)
         = execution_summary_ (this σ))
    (cs : list (Call EvaluateOptions))
    (no_jacobian : Forall (λ c, asks_for_jacobian c = false) cs)
    (problem : GradientProblem.t) (h : gmap N Qc) (k : nat) :
  ∃ σ' : State,
    run_all clock EvaluateOptions Evaluator_EvaluateGradientNorms cs
      {| this := new problem; mem := h; clock_reads := k |}
    = Returns () σ'
    ∧ balanced σ'.
Proof.
  pose proof (fresh_evaluator_balanced problem h k) as Hstart.
  revert Hstart. generalize {| this := new problem; mem := h; clock_reads := k |}.
  induction no_jacobian as [|c cs Hc _ IH]; intros σ Hbal.
  - exists σ. split; [reflexivity | exact Hbal].
  - destruct (run_keeps_balance clock EvaluateOptions
                Evaluator_EvaluateGradientNorms clock_monotone
                base_keeps_summary c σ Hc Hbal) as (σ1 & Hrun & Hbal1).
    destruct (IH σ1 Hbal1) as (σ2 & Hrest & Hbal2).
    exists σ2. split; [|exact Hbal2].
    simpl. unfold mbind, M_bind, bind. by rewrite Hrun.
Qed.

(** ** An objective without the optional capabilities, seen through the
    adapter *)

(** X4: on an evaluator whose problem hands the two optional capabilities on
    to an objective that overrides neither, [NextDirection] answers [false]
    and leaves the whole state as it was, and [EvaluateGradientNorms] is the
    base class's function run on the unchanged state. *)
Theorem plain_objective_gets_the_defaults
    (Evaluator_EvaluateGradientNorms :
       Vector.t → LineSearchMinimizerState.t → N → State → bool * State)
    (Evaluate_impl : N → N → N → gmap N Qc → bool * gmap N Qc)
    (NumParameters_impl : Z) (σ : State)
    (forwards_norms :
       GradientProblem.EvaluateGradientNorms (problem_ (this σ))
       = FirstOrderFunction.EvaluateGradientNorms
           (FirstOrderFunction.derive Evaluate_impl NumParameters_impl))
    (forwards_direction :
       GradientProblem.NextDirection (problem_ (this σ))
       = FirstOrderFunction.NextDirection
           (FirstOrderFunction.derive Evaluate_impl NumParameters_impl)) :
  (∀ (x : Vector.t) (state : LineSearchMinimizerState.t) (message : N),
     EvaluateGradientNorms Evaluator_EvaluateGradientNorms x state message σ
     = Returns (Evaluator_EvaluateGradientNorms x state message σ).1
               (Evaluator_EvaluateGradientNorms x state message σ).2)
  ∧ ∀ (previous_search_direction : N) (previous_step_size : Qc)
      (current_gradient previous_gradient : N)
      (getNextDirectionUpdateContext : Qc → NextDirectionUpdateContext.t)
      (approximate_eigenvalue_scale_ search_direction : N)
      (getRightMultiplyContext : list RightMultiplyContext.t)
      (use_approximate_eigenvalue_scaling_ : bool)
      (search_direction_dot_current_gradient : N),
      GradientProblemEvaluator.NextDirection
        previous_search_direction previous_step_size
        current_gradient previous_gradient getNextDirectionUpdateContext
        approximate_eigenvalue_scale_ search_direction getRightMultiplyContext
        use_approximate_eigenvalue_scaling_
        search_direction_dot_current_gradient σ
      = Returns false σ.
Proof.
  destruct σ as [self h k]. simpl in *. split.
  - intros x state message. unfold EvaluateGradientNorms. step_M.
    rewrite forwards_norms. simpl.
    destruct (Evaluator_EvaluateGradientNorms _ _ _ _) as [b σ'].
    reflexivity.
  - intros. unfold GradientProblemEvaluator.NextDirection. step_M.
    rewrite forwards_direction. reflexivity.
Qed.

(** ** The example objective *)

Lemma lookup_store_ne (h : gmap N Qc) (p q : N) (v : Qc) :
  p ≠ q → store h p v !! q = h !! q.
Proof. intros Hne. unfold store. by rewrite lookup_insert_ne. Qed.

(** X5: the example objective writes the same cost whether or not the
    gradient is requested, provided the gradient buffer does not overlap the
    cost; without gradient it changes no cell but the cost, with gradient no
    cell but the cost and the two gradient entries. *)
Theorem Rosenbrock_cost_and_frame
    (parameters cost gradient : N) (h : gmap N Qc)
    (gradient_apart : gradient ≠ cost ∧ N.succ gradient ≠ cost) :
  let with_gradient := Rosenbrock.Evaluate parameters cost gradient h in
  let without_gradient := Rosenbrock.Evaluate parameters cost NULL h in
  load with_gradient.2 cost = load without_gradient.2 cost
  ∧ (∀ a : N, a ≠ cost → without_gradient.2 !! a = h !! a)
  ∧ (∀ a : N, a ≠ cost → a ≠ gradient → a ≠ N.succ gradient →
       with_gradient.2 !! a = h !! a).
Proof.
  destruct gradient_apart as [Hg0 Hg1].
  unfold Rosenbrock.Evaluate. simpl.
  destruct (gradient =? NULL)%N; simpl; repeat split.
  - intros a Ha. by apply lookup_store_ne.
  - intros a Ha _ _. by apply lookup_store_ne.
  - rewrite !load_store_ne by done. by rewrite !load_store_eq.
  - intros a Ha. by apply lookup_store_ne.
  - intros a Ha Hb Hc. by rewrite !lookup_store_ne.
Qed.

Lemma Qc_square_nonneg (a : Qc) : 0 ≤ a * a.
Proof.
  destruct (Qclt_le_dec a 0) as [Hneg|Hpos].
  - replace (a * a) with ((- a) * (- a)) by ring.
    assert (0 ≤ - a) as Hopp.
    { apply Qclt_le_weak in Hneg. apply Qcopp_le_compat in Hneg.
      by replace (- 0) with 0 in Hneg by ring. }
    rewrite <- (Qcmult_0_l (- a)). by apply Qcmult_le_compat_r.
  - rewrite <- (Qcmult_0_l a). by apply Qcmult_le_compat_r.
Qed.

Lemma Qc_square_zero (a : Qc) : a * a = 0 → a = 0.
Proof. intros H. by destruct (Qcmult_integral _ _ H). Qed.

Lemma Qc_sum_zero (a b : Qc) : 0 ≤ a → 0 ≤ b → a + b = 0 → a = 0 ∧ b = 0.
Proof.
  intros Ha Hb Hsum.
  assert (a = 0) as ->.
  { apply Qcle_antisym; [|exact Ha].
    rewrite <- Hsum. rewrite <- (Qcplus_0_r a) at 1.
    apply Qcplus_le_compat; [apply Qcle_refl | exact Hb]. }
  split; [reflexivity|]. by rewrite Qcplus_0_l in Hsum.
Qed.

(** X7: the cost the example objective writes is never negative and is zero
    exactly at the point [(1, 1)], where both entries of the gradient it
    writes are zero. *)
Theorem Rosenbrock_minimum (parameters cost : N) (h : gmap N Qc) :
  let x := load h parameters in
  let y := load h (N.succ parameters) in
  let value := load (Rosenbrock.Evaluate parameters cost NULL h).2 cost in
  0 ≤ value
  ∧ (value = 0 ↔ x = 1 ∧ y = 1)
  ∧ (x = 1 → y = 1 → ∀ g : positive,
       let r := Rosenbrock.Evaluate parameters cost (N.pos g) h in
       load r.2 (N.pos g) = 0 ∧ load r.2 (N.succ (N.pos g)) = 0).
Proof.
  intros x y value. subst value.
  unfold Rosenbrock.Evaluate. cbn [snd N.eqb NULL]. fold x y.
  rewrite load_store_eq.
  assert (Qc_of_Z 100 * (y - x * x) * (y - x * x)
          = (Qc_of_Z 10 * (y - x * x)) * (Qc_of_Z 10 * (y - x * x))) as Hten.
  { replace (Qc_of_Z 100) with (Qc_of_Z 10 * Qc_of_Z 10)
      by (apply Qc_is_canon; reflexivity).
    ring. }
  rewrite Hten.
  pose proof (Qc_square_nonneg (1 - x)) as H1.
  pose proof (Qc_square_nonneg (Qc_of_Z 10 * (y - x * x))) as H2.
  split; [by apply Qc_add_nonneg|]. split.
  - split.
    + intros Hzero.
      destruct (Qc_sum_zero _ _ H1 H2 Hzero) as [Hx Hy].
      apply Qc_square_zero in Hx. apply Qc_square_zero in Hy.
      assert (x = 1) as Hx1.
      { replace x with (1 - (1 - x)) by ring. rewrite Hx. ring. }
      split; [exact Hx1|].
      destruct (Qcmult_integral _ _ Hy) as [Hten0|Hu]; [discriminate Hten0|].
      replace y with ((y - x * x) + x * x) by ring.
      rewrite Hu, Hx1. ring.
    + intros [-> ->]. ring.
  - intros Hx Hy g. cbv zeta. cbn [snd].
    rewrite (load_store_ne _ (N.succ (N.pos g)) (N.pos g)) by lia.
    rewrite !load_store_eq. rewrite Hx, Hy. split; ring.
Qed.

(** ** The extra properties on concrete inputs *)

(** Three evaluations, one without and two with gradient, among other calls
    on a fresh evaluator of the Rosenbrock problem. *)
Lemma counts_follow_the_calls_witness :
  let cs : list (Call unit) :=
    [ CallEvaluate unit () 10 51 60 NULL NULL;
      CallPlus unit 10 40 30;
      CallEvaluate unit () 10 51 60 20 NULL;
      CallNumResiduals unit;
      CallEvaluate unit () 10 51 60 20 NULL;
      CallStatistics unit ] in
  let σ := {| this := new Rosenbrock.problem; mem := Rosenbrock.memory;
              clock_reads := 0 |} in
  ∃ σ' : State,
    run_all Rosenbrock.clock unit Euclidean_EvaluateGradientNorms cs σ
      = Returns () σ'
    ∧ ∀ label : string,
        CallStatistics.calls (stat label σ')
        = (CallStatistics.calls (stat label σ) + bookings label cs)%Z
        ∧ (execution_summary_ (this σ') !! label = None
           ↔ execution_summary_ (this σ) !! label = None
             ∧ bookings label cs = 0%Z).
Proof.
  intros cs σ.
  refine (counts_follow_the_calls Rosenbrock.clock unit
            Euclidean_EvaluateGradientNorms _ cs _ σ).
  - intros x state message σ0. reflexivity.
  - subst cs. repeat constructor.
Defined.

(** The same sequence, with a clock that ticks once per reading. *)
Lemma books_stay_balanced_witness :
  let cs : list (Call unit) :=
    [ CallEvaluate unit () 10 51 60 NULL NULL;
      CallPlus unit 10 40 30;
      CallEvaluate unit () 10 51 60 20 NULL;
      CallNumResiduals unit;
      CallEvaluate unit () 10 51 60 20 NULL;
      CallStatistics unit ] in
  ∃ σ' : State,
    run_all Rosenbrock.clock unit Euclidean_EvaluateGradientNorms cs
      {| this := new Rosenbrock.problem; mem := Rosenbrock.memory;
         clock_reads := 0 |}
    = Returns () σ'
    ∧ balanced σ'.
Proof.
  intros cs.
  refine (books_stay_balanced Rosenbrock.clock unit
            Euclidean_EvaluateGradientNorms _ _ cs _
            Rosenbrock.problem Rosenbrock.memory 0).
  - intros k. unfold Rosenbrock.clock, Qcle, Qc_of_Z. simpl.
    unfold Qle. simpl. lia.
  - intros x state message σ0. reflexivity.
  - subst cs. repeat constructor.
Defined.

(** The Rosenbrock problem hands both capabilities on to an objective that
    overrides neither. *)
Lemma plain_objective_gets_the_defaults_witness :
  let σ := {| this := new Rosenbrock.problem; mem := Rosenbrock.memory;
              clock_reads := 0 |} in
  (∀ (x : Vector.t) (state : LineSearchMinimizerState.t) (message : N),
     EvaluateGradientNorms Euclidean_EvaluateGradientNorms x state message σ
     = Returns (Euclidean_EvaluateGradientNorms x state message σ).1
               (Euclidean_EvaluateGradientNorms x state message σ).2)
  ∧ ∀ (previous_search_direction : N) (previous_step_size : Qc)
      (current_gradient previous_gradient : N)
      (getNextDirectionUpdateContext : Qc → NextDirectionUpdateContext.t)
      (approximate_eigenvalue_scale_ search_direction : N)
      (getRightMultiplyContext : list RightMultiplyContext.t)
      (use_approximate_eigenvalue_scaling_ : bool)
      (search_direction_dot_current_gradient : N),
      GradientProblemEvaluator.NextDirection
        previous_search_direction previous_step_size
        current_gradient previous_gradient getNextDirectionUpdateContext
        approximate_eigenvalue_scale_ search_direction getRightMultiplyContext
        use_approximate_eigenvalue_scaling_
        search_direction_dot_current_gradient σ
      = Returns false σ.
Proof.
  refine (plain_objective_gets_the_defaults Euclidean_EvaluateGradientNorms
            Rosenbrock.Evaluate Rosenbrock.NumParameters
            {| this := new Rosenbrock.problem; mem := Rosenbrock.memory;
               clock_reads := 0 |} _ _); reflexivity.
Defined.

(** The point at address 10, the cost at 51 and the gradient at 20. *)
Lemma Rosenbrock_cost_and_frame_witness :
  let with_gradient := Rosenbrock.Evaluate 10 51 20 Rosenbrock.memory in
  let without_gradient := Rosenbrock.Evaluate 10 51 NULL Rosenbrock.memory in
  load with_gradient.2 51 = load without_gradient.2 51
  ∧ (∀ a : N, a ≠ 51%N → without_gradient.2 !! a = Rosenbrock.memory !! a)
  ∧ (∀ a : N, a ≠ 51%N → a ≠ 20%N → a ≠ N.succ 20 →
       with_gradient.2 !! a = Rosenbrock.memory !! a).
Proof.
  refine (Rosenbrock_cost_and_frame 10 51 20 Rosenbrock.memory _).
  split; discriminate.
Defined.
